(** * Emergency evacuation alerts: a shallow embedding of
    [EmergencyEvacuation] (src/unnamed/part_004) and the properties of its
    load / respond / live-update flow. *)

From Stdlib Require Import String Ascii List Bool Arith Lia.
Import ListNotations.
Local Open Scope string_scope.
Local Open Scope list_scope.

(** ** Data model (src/src/types/database.types.ts) *)

(** [Enums<'response_type'>] *)
Inductive response_type := yes | no.

(** [Enums<'severity_level'>] *)
Inductive severity_level := low | medium | high | critical.

(** [Tables<'alerts'>] row. *)
Record Alert := mkAlert {
  id : string;
  title : string;
  message : string;
  severity : severity_level;
  location : string;
  created_at : string
}.

(** [Tables<'alert_responses'>] row (the fields the component reads). *)
Record AlertResponseRow := mkAlertResponseRow {
  alert_id : string;
  user_id : string;
  response_value : response_type
}.

(** [Tables<'shelters'>] row (the fields the component renders). *)
Record Shelter := mkShelter {
  shelter_id : string;
  name : string;
  address : string;
  capacity : nat
}.

(** [interface EvacuationAlert extends Alert { responded: boolean;
    response?: AlertResponse }]; an absent [response] is [None]. *)
Record EvacuationAlert := mkEvacuationAlert {
  alert : Alert;
  responded : bool;
  response : option response_type
}.

Definition ev_id (e : EvacuationAlert) : string := id (alert e).

(** ** A JavaScript [Map] keyed by strings, as an insertion-ordered
    association list: [set] on a present key overwrites its value in place. *)
Module JSMap.
Definition t (V : Type) := list (string * V).

Definition has {V} (m : t V) (k : string) : bool :=
  existsb (fun p => String.eqb (fst p) k) m.

Definition get {V} (m : t V) (k : string) : option V :=
  option_map snd (find (fun p => String.eqb (fst p) k) m).

Definition set {V} (m : t V) (k : string) (v : V) : t V :=
  if has m k
  then map (fun p => if String.eqb (fst p) k then (k, v) else p) m
  else m ++ [(k, v)].

(** [new Map(entries)] *)
Definition of_entries {V} (es : list (string * V)) : t V :=
  fold_left (fun m p => set m (fst p) (snd p)) es [].
End JSMap.

(** ** Component state ([useState] hooks of [EmergencyEvacuation]) *)
Record State := mkState {
  alerts : list EvacuationAlert;
  shelters : list Shelter;
  loading : bool;
  error : option string;
  subscribed : bool      (* the 'realtime alerts' channel is registered *)
}.

Definition set_alerts (s : State) (l : list EvacuationAlert) : State :=
  mkState l (shelters s) (loading s) (error s) (subscribed s).
Definition set_shelters (s : State) (l : list Shelter) : State :=
  mkState (alerts s) l (loading s) (error s) (subscribed s).
Definition set_loading (s : State) (b : bool) : State :=
  mkState (alerts s) (shelters s) b (error s) (subscribed s).
Definition set_error (s : State) (e : option string) : State :=
  mkState (alerts s) (shelters s) (loading s) e (subscribed s).
Definition set_subscribed (s : State) (b : bool) : State :=
  mkState (alerts s) (shelters s) (loading s) (error s) b.

(** [useState([])], [useState(true)], [useState(null)]; nothing subscribed. *)
Definition initial_state : State := mkState [] [] true None false.

(** ** Backend calls *)

Inductive Table := alerts_table | alert_responses_table | shelters_table.

(** The data-access requests a component can issue. *)
Inductive Op :=
| Select (t : Table)
| SelectEq (t : Table) (column : string) (value : string)
| Insert (t : Table) (row : AlertResponseRow)
| Update (t : Table) (key : string)
| Delete (t : Table) (key : string).

(** [{ data, error }] of a request. *)
Inductive Result (A : Type) := Ok (data : A) | Err.
Arguments Ok {A} data.
Arguments Err {A}.

(** What the backend answers to the three reads of a load. *)
Record Backend := mkBackend {
  fetch_alerts : Result (list Alert);
  fetch_responses : string -> Result (list AlertResponseRow);
  fetch_shelters : Result (list Shelter)
}.

Definition msg_alerts_failed := "Failed to fetch alerts data. Please try again later.".
Definition msg_shelters_failed := "Failed to fetch shelters data. Please try again later.".
Definition msg_submit_failed := "Failed to submit response. Please try again.".

(** ** [fetchInitialData] *)

(** [alertsData.map(alert => ({...alert, responded: userResponses.has(alert.id),
    response: userResponses.get(alert.id)}))] *)
Definition enrich (userResponses : JSMap.t response_type) (a : Alert)
  : EvacuationAlert :=
  mkEvacuationAlert a (JSMap.has userResponses (id a)) (JSMap.get userResponses (id a)).

(** [new Map(responsesData.map(r => [r.alert_id, r.response]))] *)
Definition user_responses (rd : list AlertResponseRow) : JSMap.t response_type :=
  JSMap.of_entries (map (fun r => (alert_id r, response_value r)) rd).

(** The load, run to completion: the final state and the requests issued,
    in order.  [user] is [useAuth().user], reduced to its id. *)
Definition fetchInitialData (user : option string) (b : Backend) (s : State)
  : State * list Op :=
  match user with
  | None => (s, [])
  | Some u =>
      let s1 := set_error (set_loading s true) None in
      let reads := [Select alerts_table; SelectEq alert_responses_table "user_id" u] in
      match fetch_alerts b, fetch_responses b u with
      | Ok alertsData, Ok responsesData =>
          let s2 := set_alerts s1 (map (enrich (user_responses responsesData)) alertsData) in
          match fetch_shelters b with
          | Ok sheltersData =>
              (set_loading (set_shelters s2 sheltersData) false,
               reads ++ [Select shelters_table])
          | Err =>
              (set_loading (set_error s2 (Some msg_shelters_failed)) false,
               reads ++ [Select shelters_table])
          end
      | _, _ => (set_loading (set_error s1 (Some msg_alerts_failed)) false, reads)
      end
  end.

(** ** [handleAlertResponse], split at its [await] *)

(** [{ ...alert, responded: true, response }] on the entries with [alertId]. *)
Definition optimistic (alertId : string) (r : response_type) (l : list EvacuationAlert)
  : list EvacuationAlert :=
  map (fun a => if String.eqb (ev_id a) alertId
                then mkEvacuationAlert (alert a) true (Some r) else a) l.

(** [{ ...alert, responded: false, response: undefined }] on the entries with
    [alertId]. *)
Definition revert (alertId : string) (l : list EvacuationAlert) : list EvacuationAlert :=
  map (fun a => if String.eqb (ev_id a) alertId
                then mkEvacuationAlert (alert a) false None else a) l.

(** Up to the [await]: the optimistic update and the insert it sends. *)
Definition submit_start (user : option string) (alertId : string) (r : response_type)
  (s : State) : State * list Op :=
  match user with
  | None => (s, [])
  | Some u =>
      (set_alerts s (optimistic alertId r (alerts s)),
       [Insert alert_responses_table (mkAlertResponseRow alertId u r)])
  end.

(** After the [await]: [write_ok] says whether the insert returned no error. *)
Definition submit_finish (write_ok : bool) (alertId : string) (s : State) : State :=
  if write_ok then s
  else set_alerts (set_error s (Some msg_submit_failed)) (revert alertId (alerts s)).

(** The whole handler, when no other event runs during its [await]. *)
Definition handleAlertResponse (user : option string) (alertId : string)
  (r : response_type) (write_ok : bool) (s : State) : State * list Op :=
  match user with
  | None => (s, [])
  | Some _ =>
      let '(s1, ops) := submit_start user alertId r s in
      (submit_finish write_ok alertId s1, ops)
  end.

(** ** The realtime channel *)

(** The INSERT callback: [setAlerts(prev => [{ ...newAlert, responded: false }, ...prev])].
    [newAlert] carries no [response] field. *)
Definition on_alert_insert (newAlert : Alert) (s : State) : State :=
  set_alerts s (mkEvacuationAlert newAlert false None :: alerts s).

(** A notification reaches the callback only while the channel is registered. *)
Definition deliver (newAlert : Alert) (s : State) : State :=
  if subscribed s then on_alert_insert newAlert s else s.

(** The effect body: start the load, then [.subscribe()]. *)
Definition mount (user : option string) (b : Backend) (s : State) : State * list Op :=
  let '(s1, ops) := fetchInitialData user b s in (set_subscribed s1 true, ops).

(** The effect cleanup: [supabase.removeChannel(channel)]. *)
Definition unmount (s : State) : State := set_subscribed s false.

(** ** The component's actions and the requests each one issues *)
Inductive Action :=
| ALoad (b : Backend)
| ASubmitStart (alertId : string) (r : response_type)
| ASubmitFinish (write_ok : bool) (alertId : string)
| ANotify (a : Alert)
| AMount (b : Backend)
| AUnmount.

Definition run_action (user : option string) (act : Action) (s : State)
  : State * list Op :=
  match act with
  | ALoad b => fetchInitialData user b s
  | ASubmitStart x r => submit_start user x r s
  | ASubmitFinish ok x => (submit_finish ok x s, [])
  | ANotify a => (deliver a s, [])
  | AMount b => mount user b s
  | AUnmount => (unmount s, [])
  end.

Fixpoint run_actions (user : option string) (acts : list Action) (s : State)
  : State * list Op :=
  match acts with
  | [] => (s, [])
  | act :: rest =>
      let '(s1, ops1) := run_action user act s in
      let '(s2, ops2) := run_actions user rest s1 in
      (s2, ops1 ++ ops2)
  end.

(** ** The per-alert client state machine

    A [World] is the component's state for a signed-in user [w_user], with the
    ids whose insert is in flight ([w_pending]: between the optimistic update
    and the [await]'s return) and the ids the user is known to have answered
    ([w_answered]: loaded with a response, or insert acknowledged).  The last
    two are bookkeeping of the proof; the component keeps only [w_st]. *)
Record World := mkWorld {
  w_user : string;
  w_st : State;
  w_pending : list string;
  w_answered : list string
}.

Inductive Event :=
| ENotify (a : Alert)                     (* an INSERT notification *)
| ESubmit (alertId : string) (r : response_type)  (* a response button *)
| EAck (alertId : string)                 (* the insert returned no error *)
| EFail (alertId : string).               (* the insert returned an error *)

(** The response buttons are rendered only under [!alert.responded], so a
    submit comes from an entry with [responded = false]. *)
Inductive step : World -> Event -> World -> Prop :=
| step_notify w a :
    step w (ENotify a)
      (mkWorld (w_user w) (deliver a (w_st w)) (w_pending w) (w_answered w))
| step_submit w e r :
    In e (alerts (w_st w)) -> responded e = false ->
    step w (ESubmit (ev_id e) r)
      (mkWorld (w_user w) (fst (submit_start (Some (w_user w)) (ev_id e) r (w_st w)))
         (ev_id e :: w_pending w) (w_answered w))
| step_ack w x :
    In x (w_pending w) ->
    step w (EAck x)
      (mkWorld (w_user w) (submit_finish true x (w_st w))
         (remove string_dec x (w_pending w)) (x :: w_answered w))
| step_fail w x :
    In x (w_pending w) ->
    step w (EFail x)
      (mkWorld (w_user w) (submit_finish false x (w_st w))
         (remove string_dec x (w_pending w)) (w_answered w)).

(** Sequences of steps each allowed by [P]. *)
Inductive steps_with (P : World -> Event -> Prop) : World -> World -> Prop :=
| steps_refl w : steps_with P w w
| steps_cons w ev w1 w2 :
    P w ev -> step w ev w1 -> steps_with P w1 w2 -> steps_with P w w2.

Definition any_event (_ : World) (_ : Event) : Prop := True.

(** A notification whose alert id is not already listed. *)
Definition fresh_notify (w : World) (ev : Event) : Prop :=
  match ev with
  | ENotify a => ~ In (id a) (map ev_id (alerts (w_st w)))
  | _ => True
  end.

(** The [k]-th entry counted from the end of the list: notifications prepend
    and the handlers map in place, so this names the same entry over time. *)
Definition from_end (l : list EvacuationAlert) (k : nat) : option EvacuationAlert :=
  nth_error (rev l) k.

(** The invariant of the state machine. *)
Definition Inv (w : World) : Prop :=
  (forall x, In x (w_pending w) -> ~ In x (w_answered w)) /\
  (forall x, In x (w_pending w) \/ In x (w_answered w) ->
             In x (map ev_id (alerts (w_st w)))) /\
  (forall e, In e (alerts (w_st w)) ->
             In (ev_id e) (w_pending w) \/ In (ev_id e) (w_answered w) ->
             responded e = true).

(** ** Rendering of the alert panel ([EmergencyEvacuation], JSX) *)

(** The control under an alert card: the two response buttons under
    [!alert.responded], otherwise the status box whose text depends on
    [alert.response === 'yes']. *)
Inductive EntryView := ResponseButtons | SafeStatus | HelpStatus.

Definition response_is_yes (o : option response_type) : bool :=
  match o with Some yes => true | _ => false end.

Definition entry_view (e : EvacuationAlert) : EntryView :=
  if responded e
  then if response_is_yes (response e) then SafeStatus else HelpStatus
  else ResponseButtons.

(** [loading ? <Loader2/> : alerts.length === 0 ? 'No active alerts ...' :
    alerts.map(...)] *)
Inductive PanelView :=
| Spinner
| NoAlerts
| AlertCards (cards : list (Alert * EntryView)).

Definition panel_view (s : State) : PanelView :=
  if loading s then Spinner
  else match alerts s with
       | [] => NoAlerts
       | l => AlertCards (map (fun e => (alert e, entry_view e)) l)
       end.

(** [responded] agrees with the presence of a [response]. *)
Definition entry_consistent (e : EvacuationAlert) : bool :=
  Bool.eqb (responded e) (match response e with Some _ => true | None => false end).

(** ** The help and query portal ([handleQuerySubmit]) *)

Record QueryState := mkQueryState {
  helpQuery : string;
  querySubmitted : bool
}.

(** The ASCII characters [String.prototype.trim] removes (tab, line feed,
    vertical tab, form feed, carriage return, space); the text is taken to be
    ASCII. *)
Definition is_js_space (c : Ascii.ascii) : bool :=
  match Ascii.nat_of_ascii c with
  | 9 | 10 | 11 | 12 | 13 | 32 => true
  | _ => false
  end.

Fixpoint ltrim (l : list Ascii.ascii) : list Ascii.ascii :=
  match l with
  | [] => []
  | c :: r => if is_js_space c then ltrim r else l
  end.

(** [s.trim()] *)
Definition trim (s : string) : string :=
  string_of_list_ascii (rev (ltrim (rev (ltrim (list_ascii_of_string s))))).

(** [if (helpQuery.trim()) { setQuerySubmitted(true); setHelpQuery(''); ... }] *)
Definition handleQuerySubmit (q : QueryState) : QueryState :=
  if String.eqb (trim (helpQuery q)) "" then q else mkQueryState "" true.

(** [setTimeout(() => setQuerySubmitted(false), 3000)] when it fires. *)
Definition query_timeout (q : QueryState) : QueryState :=
  mkQueryState (helpQuery q) false.

(** ** Severity styling ([getSeverityColor], [getSeverityIcon]) *)






(** In a [new Map] built from rows, the value kept for a key: the last one. *)
Definition last_response (rd : list AlertResponseRow) (k : string)
  : option response_type :=
  fold_left (fun acc r => if String.eqb (alert_id r) k then Some (response_value r) else acc)
    rd None.

(** * Lemmas on the embedding *)

Module JSMapFacts.
Import JSMap.

Lemma get_none_iff {V} (m : t V) k : get m k = None <-> has m k = false.
Proof.
  unfold get, has; induction m as [|[k0 v0] m IH]; simpl; [tauto|].
  destruct (String.eqb k0 k); simpl; [split; discriminate|exact IH].
Qed.

Lemma has_set {V} (m : t V) k v k' :
  has (set m k v) k' = String.eqb k k' || has m k'.
Proof.
  unfold set. case_eq (has m k); intro Hk.
  - destruct (String.eqb_spec k k') as [<-|Hne]; simpl; [|].
    + rewrite <- Hk. unfold has. induction m as [|[k0 v0] m IH]; simpl; [reflexivity|].
      destruct (String.eqb_spec k0 k); simpl;
        [rewrite String.eqb_refl; reflexivity| ].
      simpl in Hk. apply String.eqb_neq in n. rewrite n in Hk. simpl in Hk.
      rewrite n. simpl. apply IH; exact Hk.
    + unfold has. clear Hk. induction m as [|[k0 v0] m IH]; simpl; [reflexivity|].
      destruct (String.eqb_spec k0 k) as [->|]; simpl.
      * apply String.eqb_neq in Hne. rewrite Hne. simpl. exact IH.
      * rewrite IH. reflexivity.
  - unfold has in *. rewrite existsb_app. simpl. rewrite orb_false_r, orb_comm.
    reflexivity.
Qed.

Lemma get_replace_other {V} (m : t V) k v k' :
  k <> k' ->
  get (map (fun p => if String.eqb (fst p) k then (k, v) else p) m) k' = get m k'.
Proof.
  intro Hne. unfold get. induction m as [|[k0 v0] m IH]; simpl; [reflexivity|].
  destruct (String.eqb_spec k0 k) as [->|]; simpl.
  - apply String.eqb_neq in Hne. rewrite Hne. exact IH.
  - destruct (String.eqb k0 k'); [reflexivity|exact IH].
Qed.

Lemma get_replace_same {V} (m : t V) k v :
  has m k = true ->
  get (map (fun p => if String.eqb (fst p) k then (k, v) else p) m) k = Some v.
Proof.
  unfold get, has. induction m as [|[k0 v0] m IH]; simpl; [discriminate|].
  destruct (String.eqb_spec k0 k) as [->|]; simpl.
  - rewrite String.eqb_refl. reflexivity.
  - apply String.eqb_neq in n. rewrite n. exact IH.
Qed.

Lemma get_set {V} (m : t V) k v k' :
  get (set m k v) k' = if String.eqb k k' then Some v else get m k'.
Proof.
  unfold set. case_eq (has m k); intro Hk.
  - destruct (String.eqb_spec k k') as [<-|Hne].
    + apply get_replace_same; exact Hk.
    + apply get_replace_other; exact Hne.
  - unfold get, has in *. induction m as [|[k0 v0] m IH]; simpl in *.
    + destruct (String.eqb k k'); reflexivity.
    + destruct (String.eqb_spec k0 k) as [->|Hne]; [discriminate|]. simpl in Hk.
      destruct (String.eqb_spec k0 k') as [->|]; simpl.
      * destruct (String.eqb_spec k k') as [->|]; [contradiction|reflexivity].
      * apply IH; exact Hk.
Qed.

Definition step {V} (m : t V) (p : string * V) : t V := set m (fst p) (snd p).

Lemma has_fold {V} (es : list (string * V)) m k :
  has (fold_left step es m) k = existsb (fun p => String.eqb (fst p) k) es || has m k.
Proof.
  revert m; induction es as [|[k0 v0] es IH]; intro m; simpl; [reflexivity|].
  rewrite IH. unfold step; simpl. rewrite has_set.
  destruct (String.eqb k0 k), (existsb _ es), (has m k); reflexivity.
Qed.

Lemma get_fold {V} (es : list (string * V)) m k v :
  get (fold_left step es m) k = Some v -> In (k, v) es \/ get m k = Some v.
Proof.
  revert m; induction es as [|[k0 v0] es IH]; intros m H; simpl in *; [right; exact H|].
  destruct (IH _ H) as [Hin|Hg]; [left; right; exact Hin|].
  unfold step in Hg; simpl in Hg. rewrite get_set in Hg.
  destruct (String.eqb_spec k0 k) as [->|]; [injection Hg as ->; left; left; reflexivity|].
  right; exact Hg.
Qed.

Lemma of_entries_has {V} (es : list (string * V)) k :
  has (of_entries es) k = true <-> exists v, In (k, v) es.
Proof.
  unfold of_entries. change (fun m p => set m (fst p) (snd p)) with (@step V).
  rewrite has_fold. simpl. rewrite orb_false_r, existsb_exists. split.
  - intros [[k0 v0] [Hin Heq]]. apply String.eqb_eq in Heq. simpl in Heq; subst.
    exists v0; exact Hin.
  - intros [v Hin]. exists (k, v); split; [exact Hin|apply String.eqb_refl].
Qed.

Lemma of_entries_get {V} (es : list (string * V)) k v :
  get (of_entries es) k = Some v -> In (k, v) es.
Proof.
  unfold of_entries. change (fun m p => set m (fst p) (snd p)) with (@step V).
  intro H. destruct (get_fold es [] k v H) as [Hin|Hn]; [exact Hin|discriminate].
Qed.
End JSMapFacts.

Lemma NoDup_map_inj {A B} (f : A -> B) (l : list A) x y :
  NoDup (map f l) -> In x l -> In y l -> f x = f y -> x = y.
Proof.
  induction l as [|a l IH]; simpl; intros Hnd Hx Hy Hf; [contradiction|].
  inversion Hnd as [|? ? Hnin Hnd']; subst.
  destruct Hx as [<-|Hx], Hy as [<-|Hy]; auto.
  - exfalso; apply Hnin. rewrite Hf. apply in_map; exact Hy.
  - exfalso; apply Hnin. rewrite <- Hf. apply in_map; exact Hx.
Qed.

Lemma user_responses_has rd k :
  JSMap.has (user_responses rd) k = true <-> exists r, In r rd /\ alert_id r = k.
Proof.
  unfold user_responses. rewrite JSMapFacts.of_entries_has. split.
  - intros [v Hin]. apply in_map_iff in Hin as [r [Heq Hr]]. injection Heq as <- _.
    exists r; split; [exact Hr|reflexivity].
  - intros [r [Hr <-]]. exists (response_value r).
    apply in_map_iff. exists r; split; [reflexivity|exact Hr].
Qed.

Lemma user_responses_get rd k v :
  JSMap.get (user_responses rd) k = Some v ->
  exists r, In r rd /\ alert_id r = k /\ response_value r = v.
Proof.
  unfold user_responses. intro H. apply JSMapFacts.of_entries_get in H.
  apply in_map_iff in H as [r [Heq Hr]]. injection Heq as <- <-.
  exists r; repeat split; exact Hr.
Qed.

Lemma load_ok_alerts u b s alertsData responsesData :
  fetch_alerts b = Ok alertsData -> fetch_responses b u = Ok responsesData ->
  alerts (fst (fetchInitialData (Some u) b s)) =
  map (enrich (user_responses responsesData)) alertsData.
Proof.
  intros Ha Hr. simpl. rewrite Ha, Hr. destruct (fetch_shelters b); reflexivity.
Qed.

(** A small load: one alert answered with [yes], one not answered. *)
Definition a1 : Alert := mkAlert "a1" "Flood" "Leave now" critical "River bank" "t1".
Definition a2 : Alert := mkAlert "a2" "Fire" "Stay inside" high "Hill road" "t2".
Definition sample_backend : Backend :=
  mkBackend (Ok [a1; a2]) (fun u => Ok [mkAlertResponseRow "a1" u yes]) (Ok []).

Example sample_load :
  alerts (fst (fetchInitialData (Some "u1") sample_backend initial_state)) =
  [mkEvacuationAlert a1 true (Some yes); mkEvacuationAlert a2 false None].
Proof. reflexivity. Qed.

(** ** C1 *)

(** C1: after a load for a signed-in user in which the alerts and the user's
    responses were fetched, every listed alert [A] has [responded = true]
    exactly when a fetched response has [alert_id = A.id]; then [A.response]
    is the value of such a response, and when the fetched responses have
    distinct [alert_id]s (the schema's unique (alert_id, user_id) constraint)
    it is the value of every response for [A.id]. *)
Theorem load_responded_iff_response_stored u b s alertsData responsesData :
  fetch_alerts b = Ok alertsData -> fetch_responses b u = Ok responsesData ->
  forall A, In A (alerts (fst (fetchInitialData (Some u) b s))) ->
    (responded A = true <-> exists r, In r responsesData /\ alert_id r = ev_id A) /\
    (responded A = true -> exists r, In r responsesData /\ alert_id r = ev_id A /\
                                     response A = Some (response_value r)) /\
    (NoDup (map alert_id responsesData) -> responded A = true ->
     forall r, In r responsesData -> alert_id r = ev_id A ->
               response A = Some (response_value r)).
Proof.
  intros Ha Hr A HA. rewrite (load_ok_alerts _ _ _ _ _ Ha Hr) in HA.
  apply in_map_iff in HA as [a [<- _]].
  unfold enrich, ev_id; simpl. rewrite user_responses_has.
  assert (Hget : JSMap.has (user_responses responsesData) (id a) = true ->
                 exists r, In r responsesData /\ alert_id r = id a /\
                           JSMap.get (user_responses responsesData) (id a) =
                           Some (response_value r)).
  { intro Hh. case_eq (JSMap.get (user_responses responsesData) (id a)).
    - intros v Hv. destruct (user_responses_get _ _ _ Hv) as [r [Hin [Hid Hval]]].
      exists r; subst; auto.
    - intro Hn. apply JSMapFacts.get_none_iff in Hn. congruence. }
  split; [tauto|split].
  - intro Hh. apply user_responses_has in Hh. exact (Hget Hh).
  - intros Hnd Hh r Hin Hid. apply user_responses_has in Hh as Hh'.
    destruct (Hget Hh') as [r' [Hin' [Hid' Hv]]]. rewrite Hv.
    rewrite (NoDup_map_inj alert_id responsesData r r' Hnd Hin Hin');
      [reflexivity|congruence].
Qed.

(** Witness of C1 on [sample_backend]: the loaded [a1] entry. *)
Lemma load_responded_iff_response_stored_witness :
  fetch_alerts sample_backend = Ok [a1; a2] /\
  fetch_responses sample_backend "u1" = Ok [mkAlertResponseRow "a1" "u1" yes] /\
  In (mkEvacuationAlert a1 true (Some yes))
     (alerts (fst (fetchInitialData (Some "u1") sample_backend initial_state))) /\
  ((true = true <-> exists r, In r [mkAlertResponseRow "a1" "u1" yes] /\ alert_id r = "a1") /\
   (true = true -> exists r, In r [mkAlertResponseRow "a1" "u1" yes] /\ alert_id r = "a1" /\
                             Some yes = Some (response_value r)) /\
   (NoDup (map alert_id [mkAlertResponseRow "a1" "u1" yes]) -> true = true ->
    forall r, In r [mkAlertResponseRow "a1" "u1" yes] -> alert_id r = "a1" ->
              Some yes = Some (response_value r))).
Proof.
  split; [reflexivity|]. split; [reflexivity|]. split; [simpl; left; reflexivity|].
  exact (load_responded_iff_response_stored "u1" sample_backend initial_state [a1; a2]
           [mkAlertResponseRow "a1" "u1" yes] eq_refl eq_refl
           (mkEvacuationAlert a1 true (Some yes)) (or_introl eq_refl)).
Defined.

(** ** C2 *)

Lemma nth_error_map_if {A} (f : A -> A) (c : A -> bool) (l : list A) i e :
  nth_error l i = Some e ->
  nth_error (map (fun a => if c a then f a else a) l) i = Some (if c e then f e else e).
Proof. intro H. rewrite nth_error_map, H. reflexivity. Qed.

(** C2: as soon as [handleAlertResponse] is invoked for a signed-in user, and
    before the insert it issues has returned, every entry with the submitted
    id is [responded = true] with [response] the submitted value. *)
Theorem submit_is_optimistic u x r s i e :
  nth_error (alerts s) i = Some e -> ev_id e = x -> responded e = false ->
  nth_error (alerts (fst (submit_start (Some u) x r s))) i =
    Some (mkEvacuationAlert (alert e) true (Some r)) /\
  snd (submit_start (Some u) x r s) =
    [Insert alert_responses_table (mkAlertResponseRow x u r)].
Proof.
  intros Hi Hx _. simpl. split; [|reflexivity].
  unfold optimistic. rewrite (nth_error_map_if _ _ _ _ _ Hi), Hx, String.eqb_refl.
  reflexivity.
Qed.

Lemma submit_is_optimistic_witness :
  nth_error (alerts (fst (fetchInitialData (Some "u1") sample_backend initial_state))) 1 =
    Some (mkEvacuationAlert a2 false None) /\
  nth_error (alerts (fst (submit_start (Some "u1") "a2" no
    (fst (fetchInitialData (Some "u1") sample_backend initial_state))))) 1 =
    Some (mkEvacuationAlert a2 true (Some no)) /\
  snd (submit_start (Some "u1") "a2" no
    (fst (fetchInitialData (Some "u1") sample_backend initial_state))) =
    [Insert alert_responses_table (mkAlertResponseRow "a2" "u1" no)].
Proof.
  split; [reflexivity|].
  exact (submit_is_optimistic "u1" "a2" no
           (fst (fetchInitialData (Some "u1") sample_backend initial_state)) 1
           (mkEvacuationAlert a2 false None) eq_refl eq_refl eq_refl).
Defined.

(** ** C3 *)

Lemma revert_optimistic_id x r l :
  (forall e, In e l -> ev_id e = x -> responded e = false /\ response e = None) ->
  revert x (optimistic x r l) = l.
Proof.
  induction l as [|e l IH]; intro H; simpl; [reflexivity|].
  f_equal; [|apply IH; intros e' He'; apply H; right; exact He'].
  pose proof (H e (or_introl eq_refl)) as He. clear H IH.
  destruct e as [a b o]; unfold ev_id in *; simpl in *.
  destruct (String.eqb_spec (id a) x) as [Hx|Hx]; simpl.
  - rewrite Hx, String.eqb_refl. destruct (He Hx) as [-> ->]. reflexivity.
  - apply String.eqb_neq in Hx. rewrite Hx. reflexivity.
Qed.

(** C3: when the insert of a submitted response returns an error, the
    handler issues no further request (its only request is the one insert),
    sets the message "Failed to submit response. Please try again.", and
    every entry with the submitted id ends [responded = false] and
    [response = undefined], the others unchanged; an alert submitted from its
    unanswered state ([responded = false], no response) is back to exactly
    its pre-submission entry.  The revert step sets the same fields whatever
    ran during the [await]. *)
Theorem submit_failure_reverts u x r s :
  snd (handleAlertResponse (Some u) x r false s) =
    [Insert alert_responses_table (mkAlertResponseRow x u r)] /\
  error (fst (handleAlertResponse (Some u) x r false s)) = Some msg_submit_failed /\
  (forall i e, nth_error (alerts s) i = Some e ->
     nth_error (alerts (fst (handleAlertResponse (Some u) x r false s))) i =
     Some (if String.eqb (ev_id e) x then mkEvacuationAlert (alert e) false None else e)) /\
  ((forall e, In e (alerts s) -> ev_id e = x -> responded e = false /\ response e = None) ->
   alerts (fst (handleAlertResponse (Some u) x r false s)) = alerts s) /\
  (forall s1 i e, nth_error (alerts s1) i = Some e ->
     error (submit_finish false x s1) = Some msg_submit_failed /\
     nth_error (alerts (submit_finish false x s1)) i =
     Some (if String.eqb (ev_id e) x then mkEvacuationAlert (alert e) false None else e)).
Proof.
  simpl. split; [reflexivity|]. split; [reflexivity|]. split; [|split].
  - intros i e Hi. unfold revert, optimistic. rewrite map_map, nth_error_map, Hi.
    simpl. destruct (String.eqb (ev_id e) x) eqn:Hx; simpl; unfold ev_id in *; simpl.
    + rewrite Hx. reflexivity.
    + rewrite Hx. reflexivity.
  - apply revert_optimistic_id.
  - intros s1 i e Hi. split; [reflexivity|]. simpl. unfold revert.
    rewrite (nth_error_map_if _ _ _ _ _ Hi). reflexivity.
Qed.

(** ** C4 *)

(** C4: a notification delivered while the channel is registered adds one
    entry [{ ...newAlert, responded: false }] at the head of the list and
    keeps the previous list, unchanged, as its tail; nothing else changes and
    no request is issued. *)
Theorem notify_prepends_one u a s :
  subscribed s = true ->
  run_action u (ANotify a) s =
    (mkState (mkEvacuationAlert a false None :: alerts s) (shelters s) (loading s)
             (error s) (subscribed s), []) /\
  length (alerts (deliver a s)) = S (length (alerts s)).
Proof.
  intro Hs. simpl. unfold deliver, on_alert_insert, set_alerts. rewrite Hs. split; reflexivity.
Qed.

Lemma notify_prepends_one_witness :
  subscribed (set_subscribed initial_state true) = true /\
  run_action (Some "u1") (ANotify a1) (set_subscribed initial_state true) =
    (mkState [mkEvacuationAlert a1 false None] [] true None true, []) /\
  length (alerts (deliver a1 (set_subscribed initial_state true))) = 1.
Proof.
  split; [reflexivity|].
  exact (notify_prepends_one (Some "u1") a1 (set_subscribed initial_state true) eq_refl).
Defined.

(** ** C5 *)

Definition shelters_down_backend : Backend :=
  mkBackend (Ok [a1]) (fun _ => Ok []) Err.

(** C5, as stated, fails: when only the shelters read fails, the load reports
    an error but the alert list of that attempt has already been committed. *)
Lemma load_failure_commits_alerts :
  error (fst (fetchInitialData (Some "u1") shelters_down_backend initial_state)) =
    Some msg_shelters_failed /\
  alerts initial_state = [] /\
  alerts (fst (fetchInitialData (Some "u1") shelters_down_backend initial_state)) =
    [mkEvacuationAlert a1 false None].
Proof. repeat split; reflexivity. Qed.

(** C5 (amended): a load for a signed-in user issues each read at most once
    and no write.  If the alerts or the responses read fails, the message
    "Failed to fetch alerts data. ..." is set and neither the alert list nor
    the shelters are changed.  If both succeed and the shelters read fails,
    the message "Failed to fetch shelters data. ..." is set and the shelters
    are unchanged, but the alert list of the attempt is committed. *)
Theorem load_failure_reported u b s :
  ((fetch_alerts b = Err \/ fetch_responses b u = Err) ->
     alerts (fst (fetchInitialData (Some u) b s)) = alerts s /\
     shelters (fst (fetchInitialData (Some u) b s)) = shelters s /\
     error (fst (fetchInitialData (Some u) b s)) = Some msg_alerts_failed /\
     loading (fst (fetchInitialData (Some u) b s)) = false /\
     snd (fetchInitialData (Some u) b s) =
       [Select alerts_table; SelectEq alert_responses_table "user_id" u]) /\
  (forall alertsData responsesData,
     fetch_alerts b = Ok alertsData -> fetch_responses b u = Ok responsesData ->
     fetch_shelters b = Err ->
     alerts (fst (fetchInitialData (Some u) b s)) =
       map (enrich (user_responses responsesData)) alertsData /\
     shelters (fst (fetchInitialData (Some u) b s)) = shelters s /\
     error (fst (fetchInitialData (Some u) b s)) = Some msg_shelters_failed /\
     loading (fst (fetchInitialData (Some u) b s)) = false /\
     snd (fetchInitialData (Some u) b s) =
       [Select alerts_table; SelectEq alert_responses_table "user_id" u;
        Select shelters_table]).
Proof.
  split.
  - intros [Ha|Hr]; simpl.
    + rewrite Ha. repeat split; reflexivity.
    + rewrite Hr. destruct (fetch_alerts b); repeat split; reflexivity.
  - intros ad rd Ha Hr Hs. simpl. rewrite Ha, Hr, Hs. repeat split; reflexivity.
Qed.

Lemma load_failure_reported_witness :
  alerts (fst (fetchInitialData (Some "u1")
                 (mkBackend Err (fun _ => Ok []) (Ok [])) initial_state)) = [] /\
  alerts (fst (fetchInitialData (Some "u1") shelters_down_backend initial_state)) =
    map (enrich (user_responses [])) [a1].
Proof.
  split.
  - exact (proj1 (proj1 (load_failure_reported "u1"
             (mkBackend Err (fun _ => Ok []) (Ok [])) initial_state) (or_introl eq_refl))).
  - exact (proj1 (proj2 (load_failure_reported "u1" shelters_down_backend initial_state)
             [a1] [] eq_refl eq_refl eq_refl)).
Defined.

(** ** C6 *)

(** The state right after loading [a1] with the stored response [yes]. *)
Definition loaded_world : World :=
  mkWorld "u1" (fst (mount (Some "u1") sample_backend initial_state)) [] ["a1"].

Definition loaded_a1 : EvacuationAlert := mkEvacuationAlert a1 true (Some yes).

(** C6, as stated, fails: after a notification repeating the id "a1", a
    submit on that new unanswered entry followed by a failed insert also
    reverts the entry loaded as answered. *)
Lemma answered_entry_reverted :
  ~ (forall w w', steps_with any_event w w' ->
       forall k e, from_end (alerts (w_st w)) k = Some e -> responded e = true ->
         In (ev_id e) (w_answered w) ->
         exists e', from_end (alerts (w_st w')) k = Some e' /\ responded e' = true).
Proof.
  intro H.
  set (w1 := mkWorld "u1" (deliver a1 (w_st loaded_world)) [] ["a1"]).
  set (w2 := mkWorld "u1" (fst (submit_start (Some "u1") "a1" no (w_st w1))) ["a1"] ["a1"]).
  set (w3 := mkWorld "u1" (submit_finish false "a1" (w_st w2))
               (remove string_dec "a1" ["a1"]) ["a1"]).
  assert (Hsteps : steps_with any_event loaded_world w3).
  { apply steps_cons with (ev := ENotify a1) (w1 := w1); [exact I|apply step_notify|].
    apply steps_cons with (ev := ESubmit (ev_id (mkEvacuationAlert a1 false None)) no)
                          (w1 := w2); [exact I| |].
    - apply (step_submit w1 (mkEvacuationAlert a1 false None) no);
        [left; reflexivity|reflexivity].
    - apply steps_cons with (ev := EFail "a1") (w1 := w3); [exact I| |apply steps_refl].
      apply step_fail. left; reflexivity. }
  destruct (H _ _ Hsteps 1 loaded_a1 eq_refl eq_refl (or_introl eq_refl))
    as [e' [He' Hr]].
  vm_compute in He'. injection He' as <-. discriminate Hr.
Qed.

Lemma ids_optimistic x r l : map ev_id (optimistic x r l) = map ev_id l.
Proof.
  unfold optimistic. rewrite map_map. apply map_ext. intro a.
  destruct (String.eqb (ev_id a) x); reflexivity.
Qed.

Lemma ids_revert x l : map ev_id (revert x l) = map ev_id l.
Proof.
  unfold revert. rewrite map_map. apply map_ext. intro a.
  destruct (String.eqb (ev_id a) x); reflexivity.
Qed.

Lemma in_optimistic x r l e :
  In e (optimistic x r l) ->
  (ev_id e = x /\ responded e = true) \/ (In e l /\ ev_id e <> x).
Proof.
  unfold optimistic. intro H. apply in_map_iff in H as [a [<- Ha]].
  destruct (String.eqb_spec (ev_id a) x) as [Hx|Hx]; [left; split; [exact Hx|reflexivity]|].
  right; split; assumption.
Qed.

Lemma in_revert x l e :
  In e (revert x l) ->
  (ev_id e = x /\ responded e = false) \/ (In e l /\ ev_id e <> x).
Proof.
  unfold revert. intro H. apply in_map_iff in H as [a [<- Ha]].
  destruct (String.eqb_spec (ev_id a) x) as [Hx|Hx]; [left; split; [exact Hx|reflexivity]|].
  right; split; assumption.
Qed.

Lemma Inv_step w ev w' : Inv w -> fresh_notify w ev -> step w ev w' -> Inv w'.
Proof.
  intros [Hdisj [Hsub Hresp]] Hfresh Hstep.
  destruct Hstep as [w a|w e r He Hfalse|w x Hx|w x Hx]; simpl in *.
  - (* notification *)
    unfold deliver. destruct (subscribed (w_st w)); [|repeat split; assumption].
    unfold on_alert_insert, set_alerts; simpl. split; [exact Hdisj|split].
    + intros y Hy. right. apply Hsub; exact Hy.
    + intros e' [<-|He'] Hin.
      * exfalso. apply Hfresh. apply Hsub. exact Hin.
      * apply Hresp; assumption.
  - (* submit from an unanswered entry *)
    assert (Hnot : ~ (In (ev_id e) (w_pending w) \/ In (ev_id e) (w_answered w))).
    { intro Hin. rewrite (Hresp e He Hin) in Hfalse. discriminate. }
    split; [|split].
    + intros y [<-|Hy] Ha; [apply Hnot; right; exact Ha|exact (Hdisj y Hy Ha)].
    + intros y Hy. unfold set_alerts; simpl. rewrite ids_optimistic. destruct Hy as [[<-|Hy]|Hy].
      * apply in_map; exact He.
      * apply Hsub; left; exact Hy.
      * apply Hsub; right; exact Hy.
    + intros e' He' Hin. unfold set_alerts in He'; simpl in He'. apply in_optimistic in He' as [[_ Ht]|[He' Hne]]; [exact Ht|].
      apply Hresp; [exact He'|]. destruct Hin as [[Heq|Hp]|Ha]; [congruence|auto|auto].
  - (* insert acknowledged: the state is unchanged *)
    split; [|split].
    + intros y Hy [<-|Ha]; apply in_remove in Hy as [Hy Hne]; [congruence|].
      exact (Hdisj y Hy Ha).
    + intros y [Hy|[<-|Ha]]; apply Hsub; auto.
      left; apply in_remove in Hy as [Hy _]; exact Hy.
    + intros e' He' [Hp|[Heq|Ha]]; apply Hresp; auto.
      * left; apply in_remove in Hp as [Hp _]; exact Hp.
      * left; rewrite <- Heq; exact Hx.
  - (* insert failed: revert *)
    unfold submit_finish, set_alerts, set_error; simpl.
    split; [|split].
    + intros y Hy Ha. apply in_remove in Hy as [Hy _]. exact (Hdisj y Hy Ha).
    + intros y Hy. simpl. rewrite ids_revert. apply Hsub.
      destruct Hy as [Hy|Hy]; [left; apply in_remove in Hy as [Hy _]|right]; exact Hy.
    + intros e' He' Hin. simpl in He', Hin. apply in_revert in He' as [[Heq _]|[He' Hne]].
      * exfalso. destruct Hin as [Hp|Ha].
        -- apply in_remove in Hp as [_ Hne]. contradiction.
        -- apply (Hdisj x Hx). rewrite <- Heq. exact Ha.
      * apply Hresp; [exact He'|].
        destruct Hin as [Hp|Ha]; [left; apply in_remove in Hp as [Hp _]; exact Hp|right; exact Ha].
Qed.

Lemma Inv_steps w w' :
  Inv w -> steps_with fresh_notify w w' ->
  Inv w' /\ (forall x, In x (w_answered w) -> In x (w_answered w')).
Proof.
  intros HI Hs. induction Hs as [w|w ev w1 w2 Hf Hst Hs IH]; [split; auto|].
  destruct (IH (Inv_step _ _ _ HI Hf Hst)) as [HI2 Hmono]. split; [exact HI2|].
  intros x Hx. apply Hmono. destruct Hst; simpl in *; auto.
Qed.

(** C6 (amended): as long as every notification carries an alert id not
    already in the list, an alert loaded with a stored response or whose
    insert was acknowledged stays [responded = true] under any sequence of
    notifications, submits from unanswered entries, acknowledgements and
    failed inserts.  [Inv] holds after a load (see the witness). *)
Theorem answered_stays_answered w w' :
  Inv w -> steps_with fresh_notify w w' ->
  forall x, In x (w_answered w) ->
  forall e, In e (alerts (w_st w')) -> ev_id e = x -> responded e = true.
Proof.
  intros HI Hs x Hx e He Hid. destruct (Inv_steps w w' HI Hs) as [[_ [_ Hresp]] Hmono].
  apply Hresp; [exact He|]. right. rewrite Hid. apply Hmono; exact Hx.
Qed.

Definition a3 : Alert := mkAlert "a3" "Storm" "Shelter in place" medium "Coast" "t3".

Definition trace_w1 : World :=
  mkWorld "u1" (deliver a3 (w_st loaded_world)) [] ["a1"].
Definition trace_w2 : World :=
  mkWorld "u1" (fst (submit_start (Some "u1") "a2" no (w_st trace_w1))) ["a2"] ["a1"].
Definition trace_w3 : World :=
  mkWorld "u1" (submit_finish false "a2" (w_st trace_w2))
    (remove string_dec "a2" ["a2"]) ["a1"].

(** Witness of C6 (amended): after the load of [sample_backend], a fresh
    notification, a submit on "a2" and its failed insert leave "a1" answered. *)
Lemma answered_stays_answered_witness :
  Inv loaded_world /\ steps_with fresh_notify loaded_world trace_w3 /\
  (forall e, In e (alerts (w_st trace_w3)) -> ev_id e = "a1" -> responded e = true).
Proof.
  assert (HI : Inv loaded_world).
  { unfold Inv; vm_compute. split; [|split].
    - intros x [] _.
    - intros x [[]|[Hx|[]]]; subst x; left; reflexivity.
    - intros e [He|[He|[]]] [[]|[Hx|[]]]; subst e; vm_compute in Hx; congruence. }
  assert (Hs : steps_with fresh_notify loaded_world trace_w3).
  { apply steps_cons with (ev := ENotify a3) (w1 := trace_w1).
    - vm_compute. intros [H|[H|[]]]; discriminate H.
    - apply step_notify.
    - apply steps_cons with (ev := ESubmit (ev_id (mkEvacuationAlert a2 false None)) no)
                            (w1 := trace_w2); [exact I| |].
      + apply (step_submit trace_w1 (mkEvacuationAlert a2 false None) no);
          [vm_compute; right; right; left; reflexivity|reflexivity].
      + apply steps_cons with (ev := EFail "a2") (w1 := trace_w3); [exact I| |apply steps_refl].
        apply step_fail. left; reflexivity. }
  split; [exact HI|]. split; [exact Hs|].
  exact (answered_stays_answered loaded_world trace_w3 HI Hs "a1" (or_introl eq_refl)).
Defined.

(** ** C7 *)

Definition is_insert (op : Op) : bool :=
  match op with Insert _ _ => true | _ => false end.

Definition is_submit (act : Action) : bool :=
  match act with ASubmitStart _ _ => true | _ => false end.

(** What a request may be, given the action that issued it. *)
Definition op_allowed (user : option string) (acts : list Action) (op : Op) : Prop :=
  match op with
  | Update _ _ | Delete _ _ => False
  | Insert t row =>
      t = alert_responses_table /\ user = Some (user_id row) /\
      In (ASubmitStart (alert_id row) (response_value row)) acts
  | Select _ | SelectEq _ _ _ => True
  end.

Lemma run_action_ops user act s op :
  In op (snd (run_action user act s)) -> op_allowed user [act] op.
Proof.
  destruct act as [b|x r|ok x|a|b|]; simpl; try contradiction.
  - destruct user as [u|]; simpl; [|contradiction].
    destruct (fetch_alerts b), (fetch_responses b u); simpl;
      try (destruct (fetch_shelters b)); simpl;
      intros H; repeat (destruct H as [<-|H]; [exact I|]); contradiction.
  - destruct user as [u|]; simpl; [|contradiction].
    intros [<-|[]]. simpl. repeat split; left; reflexivity.
  - unfold mount. destruct (fetchInitialData user b s) as [s1 ops] eqn:Hf. simpl.
    destruct user as [u|]; simpl in Hf; [|injection Hf as _ <-; contradiction].
    destruct (fetch_alerts b), (fetch_responses b u); simpl in Hf;
      try (destruct (fetch_shelters b)); injection Hf as _ <-; simpl;
      intros H; repeat (destruct H as [<-|H]; [exact I|]); contradiction.
Qed.

Lemma run_action_inserts u act s :
  length (filter is_insert (snd (run_action (Some u) act s))) =
  if is_submit act then 1 else 0.
Proof.
  destruct act as [b|x r|ok x|a|b|]; simpl; try reflexivity.
  - destruct (fetch_alerts b), (fetch_responses b u); simpl; try reflexivity.
    destruct (fetch_shelters b); reflexivity.
  - unfold mount. simpl.
    destruct (fetch_alerts b), (fetch_responses b u); simpl; try reflexivity.
    destruct (fetch_shelters b); reflexivity.
Qed.

(** C7: over any run of the component's actions, no request is an update or
    a delete; every insert is into [alert_responses], carries the signed-in
    user's id and the [alert_id] and value of a submit of the run; and a
    signed-in user's run issues exactly one insert per submit. *)
Theorem responses_insert_only user acts s :
  (forall op, In op (snd (run_actions user acts s)) -> op_allowed user acts op) /\
  (forall u, user = Some u ->
     length (filter is_insert (snd (run_actions user acts s))) =
     length (filter is_submit acts)).
Proof.
  revert s; induction acts as [|act acts IH]; intro s; simpl; [split; [contradiction|reflexivity]|].
  destruct (run_action user act s) as [s1 ops1] eqn:Ha.
  destruct (run_actions user acts s1) as [s2 ops2] eqn:Hr.
  destruct (IH s1) as [IHops IHcount]. rewrite Hr in IHops, IHcount. simpl in *.
  split.
  - intros op Hop. apply in_app_or in Hop as [Hop|Hop].
    + pose proof (run_action_ops user act s op) as Hallowed. rewrite Ha in Hallowed.
      specialize (Hallowed Hop). destruct op; simpl in *; try exact I; try contradiction.
      destruct Hallowed as [? [? [Hin|[]]]]. repeat split; auto; left; exact Hin.
    + specialize (IHops op Hop). destruct op; simpl in *; try exact I; try contradiction.
      destruct IHops as [? [? Hin]]. repeat split; auto.
  - intros u ->. rewrite filter_app, length_app, (IHcount u eq_refl).
    pose proof (run_action_inserts u act s) as Hc. rewrite Ha in Hc. simpl in Hc.
    rewrite Hc. destruct (is_submit act); reflexivity.
Qed.

(** ** C8 *)

(** C8: after the effect cleanup has removed the channel, no sequence of
    notifications changes the component's state or issues a request. *)
Theorem unmount_stops_notifications user s notifs :
  run_actions user (map ANotify notifs) (unmount s) = (unmount s, []).
Proof.
  induction notifs as [|a notifs IH]; simpl; [reflexivity|].
  unfold deliver. simpl. rewrite IH. reflexivity.
Qed.

(** ** C9 *)

(** C9: the INSERT callback prepends even when the alert's id is already
    listed, after which the list holds that id twice. *)
Theorem notify_duplicates_id a s :
  subscribed s = true -> In (id a) (map ev_id (alerts s)) ->
  alerts (deliver a s) = mkEvacuationAlert a false None :: alerts s /\
  ~ NoDup (map ev_id (alerts (deliver a s))).
Proof.
  intros Hs Hin. unfold deliver. rewrite Hs. simpl. split; [reflexivity|].
  intro Hnd. inversion Hnd as [|? ? Hnin _]. apply Hnin. exact Hin.
Qed.

Lemma notify_duplicates_id_witness :
  subscribed (fst (mount (Some "u1") sample_backend initial_state)) = true /\
  In (id a1) (map ev_id (alerts (fst (mount (Some "u1") sample_backend initial_state)))) /\
  ~ NoDup (map ev_id (alerts (deliver a1 (fst (mount (Some "u1") sample_backend initial_state))))).
Proof.
  split; [reflexivity|]. split; [vm_compute; left; reflexivity|].
  apply (notify_duplicates_id a1 (fst (mount (Some "u1") sample_backend initial_state)));
    [reflexivity|vm_compute; left; reflexivity].
Defined.

(** ** C10 *)

(** C10: with no signed-in user, the load and the response handler (whatever
    the insert would return) leave the state as it is and issue no request. *)
Theorem no_user_no_effect b x r write_ok s :
  fetchInitialData None b s = (s, []) /\
  submit_start None x r s = (s, []) /\
  handleAlertResponse None x r write_ok s = (s, []).
Proof. repeat split. Qed.

(** * Further properties of the component *)

Lemma enrich_consistent m a : entry_consistent (enrich m a) = true.
Proof.
  unfold entry_consistent, enrich; simpl.
  case_eq (JSMap.get m (id a)); [intros v Hv|intro Hn].
  - case_eq (JSMap.has m (id a)); intro Hh; [reflexivity|].
    apply JSMapFacts.get_none_iff in Hh. congruence.
  - apply JSMapFacts.get_none_iff in Hn. rewrite Hn. reflexivity.
Qed.

Lemma load_consistent user b s :
  (forall e, In e (alerts s) -> entry_consistent e = true) ->
  forall e, In e (alerts (fst (fetchInitialData user b s))) -> entry_consistent e = true.
Proof.
  intros H e. destruct user as [u|]; simpl; [|apply H].
  destruct (fetch_alerts b), (fetch_responses b u); simpl; try apply H;
    try (destruct (fetch_shelters b)); simpl;
    intro He; apply in_map_iff in He as [a [<- _]]; apply enrich_consistent.
Qed.

Lemma run_action_consistent user act s :
  (forall e, In e (alerts s) -> entry_consistent e = true) ->
  forall e, In e (alerts (fst (run_action user act s))) -> entry_consistent e = true.
Proof.
  intro H. destruct act as [b|x r|ok x|a|b|]; simpl.
  - apply load_consistent; exact H.
  - destruct user; simpl; [|exact H].
    intros e He. apply in_map_iff in He as [e0 [<- He0]].
    destruct (String.eqb (ev_id e0) x); [reflexivity|apply H; exact He0].
  - destruct ok; simpl; [exact H|].
    intros e He. apply in_map_iff in He as [e0 [<- He0]].
    destruct (String.eqb (ev_id e0) x); [reflexivity|apply H; exact He0].
  - unfold deliver. destruct (subscribed s); simpl; [|exact H].
    intros e [<-|He]; [reflexivity|apply H; exact He].
  - unfold mount. destruct (fetchInitialData user b s) as [s1 ops] eqn:Hf. simpl.
    intros e He. apply (load_consistent user b s H). rewrite Hf. exact He.
  - exact H.
Qed.

Lemma run_actions_consistent user acts s :
  (forall e, In e (alerts s) -> entry_consistent e = true) ->
  forall e, In e (alerts (fst (run_actions user acts s))) -> entry_consistent e = true.
Proof.
  revert s; induction acts as [|act acts IH]; intros s H; simpl; [exact H|].
  destruct (run_action user act s) as [s1 ops1] eqn:Ha.
  pose proof (run_action_consistent user act s H) as H1. rewrite Ha in H1.
  specialize (IH s1 H1). destruct (run_actions user acts s1) as [s2 ops2]. exact IH.
Qed.

(** X1: from the initial state, after any run of loads, submits (started or
    finished, acknowledged or failed), notifications, mounts and unmounts,
    every listed alert has [responded = true] exactly when it carries a
    [response]. *)
Theorem responded_iff_response_present user acts e :
  In e (alerts (fst (run_actions user acts initial_state))) ->
  responded e = match response e with Some _ => true | None => false end.
Proof.
  intro He. apply Bool.eqb_prop.
  exact (run_actions_consistent user acts initial_state (fun _ H => False_ind _ H) e He).
Qed.

Definition sample_run : list Action :=
  [AMount sample_backend; ANotify a3; ASubmitStart "a2" no; ASubmitFinish false "a2";
   ASubmitStart "a3" yes].

Lemma responded_iff_response_present_witness :
  In (mkEvacuationAlert a3 true (Some yes))
     (alerts (fst (run_actions (Some "u1") sample_run initial_state))) /\
  true = true.
Proof.
  split; [vm_compute; left; reflexivity|].
  exact (responded_iff_response_present (Some "u1") sample_run
           (mkEvacuationAlert a3 true (Some yes)) ltac:(vm_compute; left; reflexivity)).
Defined.

(** X2: from the initial state, after any run of actions, a listed alert
    shows the response buttons exactly when it has no response, the
    "safe/evacuated" box exactly when its response is [yes], and the "help
    request sent" box exactly when its response is [no]. *)
Theorem entry_view_matches_response user acts e :
  In e (alerts (fst (run_actions user acts initial_state))) ->
  (entry_view e = ResponseButtons <-> response e = None) /\
  (entry_view e = SafeStatus <-> response e = Some yes) /\
  (entry_view e = HelpStatus <-> response e = Some no).
Proof.
  intro He. pose proof (responded_iff_response_present user acts e He) as Hc.
  unfold entry_view. destruct e as [a rsp [[|]|]]; simpl in *; subst rsp;
    repeat split; intro H; try reflexivity; discriminate H.
Qed.

Lemma entry_view_matches_response_witness :
  In (mkEvacuationAlert a1 true (Some yes))
     (alerts (fst (run_actions (Some "u1") sample_run initial_state))) /\
  (SafeStatus = ResponseButtons <-> Some yes = None).
Proof.
  split; [vm_compute; right; left; reflexivity|].
  exact (proj1 (entry_view_matches_response (Some "u1") sample_run
           (mkEvacuationAlert a1 true (Some yes)) ltac:(vm_compute; right; left; reflexivity))).
Defined.

(** X3: with no signed-in user, whatever runs (loads, submits, notifications,
    mounts, unmounts), the alert panel never leaves the loading spinner. *)
Theorem no_user_spinner_forever acts :
  panel_view (fst (run_actions None acts initial_state)) = Spinner.
Proof.
  assert (H : forall s, loading s = true -> loading (fst (run_actions None acts s)) = true).
  { induction acts as [|act acts IH]; intros s Hs; simpl; [exact Hs|].
    destruct (run_action None act s) as [s1 ops1] eqn:Ha.
    assert (Hs1 : loading s1 = true).
    { destruct act as [b|x r|ok x|a|b|]; simpl in Ha; injection Ha as <- _; simpl; auto.
      - destruct ok; simpl; exact Hs.
      - unfold deliver. destruct (subscribed s); exact Hs. }
    specialize (IH s1 Hs1). destruct (run_actions None acts s1). exact IH. }
  unfold panel_view. rewrite (H initial_state eq_refl). reflexivity.
Qed.





Lemma optimistic_absent x r l : ~ In x (map ev_id l) -> optimistic x r l = l.
Proof.
  induction l as [|e l IH]; simpl; intro H; [reflexivity|].
  destruct (String.eqb_spec (ev_id e) x) as [Hx|]; [exfalso; apply H; left; exact Hx|].
  f_equal. apply IH. intro Hin; apply H; right; exact Hin.
Qed.

Lemma revert_absent x l : ~ In x (map ev_id l) -> revert x l = l.
Proof.
  induction l as [|e l IH]; simpl; intro H; [reflexivity|].
  destruct (String.eqb_spec (ev_id e) x) as [Hx|]; [exfalso; apply H; left; exact Hx|].
  f_equal. apply IH. intro Hin; apply H; right; exact Hin.
Qed.

(** X7: submitting a response for an id that no listed alert has changes no
    entry, neither optimistically nor on failure, yet the insert is still
    sent; if it fails the error message is set all the same. *)
Theorem submit_absent_id u x r write_ok s :
  ~ In x (map ev_id (alerts s)) ->
  alerts (fst (submit_start (Some u) x r s)) = alerts s /\
  alerts (fst (handleAlertResponse (Some u) x r write_ok s)) = alerts s /\
  snd (handleAlertResponse (Some u) x r write_ok s) =
    [Insert alert_responses_table (mkAlertResponseRow x u r)] /\
  error (fst (handleAlertResponse (Some u) x r write_ok s)) =
    (if write_ok then error s else Some msg_submit_failed).
Proof.
  intro H. simpl. rewrite (optimistic_absent x r _ H).
  destruct write_ok; simpl; [repeat split|].
  rewrite (revert_absent x _ H). repeat split.
Qed.

Lemma submit_absent_id_witness :
  ~ In "zz" (map ev_id (alerts (fst (fetchInitialData (Some "u1") sample_backend initial_state)))) /\
  alerts (fst (submit_start (Some "u1") "zz" yes
    (fst (fetchInitialData (Some "u1") sample_backend initial_state)))) =
  alerts (fst (fetchInitialData (Some "u1") sample_backend initial_state)).
Proof.
  assert (H : ~ In "zz" (map ev_id (alerts (fst (fetchInitialData (Some "u1")
                 sample_backend initial_state))))).
  { vm_compute. intros [H|[H|[]]]; discriminate H. }
  split; [exact H|].
  exact (proj1 (submit_absent_id "u1" "zz" yes false
           (fst (fetchInitialData (Some "u1") sample_backend initial_state)) H)).
Defined.

(** X8: while the channel is registered, a sequence of notifications puts the
    new alerts, unanswered, in front of the list in reverse arrival order
    (newest first), keeps the previous list after them, and issues no
    request. *)
Theorem notifications_newest_first u ns s :
  subscribed s = true ->
  alerts (fst (run_actions u (map ANotify ns) s)) =
    rev (map (fun a => mkEvacuationAlert a false None) ns) ++ alerts s /\
  subscribed (fst (run_actions u (map ANotify ns) s)) = true /\
  snd (run_actions u (map ANotify ns) s) = [].
Proof.
  revert s; induction ns as [|a ns IH]; intros s Hs; simpl; [auto|].
  unfold deliver. rewrite Hs. simpl.
  destruct (IH (on_alert_insert a s) Hs) as [Ha [Hsub Hops]].
  destruct (run_actions u (map ANotify ns) (on_alert_insert a s)) as [s2 ops2].
  simpl in *. rewrite Ha, Hops, <- app_assoc. repeat split; assumption.
Qed.

Lemma notifications_newest_first_witness :
  subscribed (set_subscribed initial_state true) = true /\
  map ev_id (alerts (fst (run_actions (Some "u1") (map ANotify [a1; a2; a3])
                             (set_subscribed initial_state true)))) = ["a3"; "a2"; "a1"].
Proof.
  split; [reflexivity|].
  rewrite (proj1 (notifications_newest_first (Some "u1") [a1; a2; a3]
                    (set_subscribed initial_state true) eq_refl)).
  reflexivity.
Defined.

Lemma get_fold_last {V} (es : list (string * V)) m k :
  JSMap.get (fold_left JSMapFacts.step es m) k =
  fold_left (fun acc p => if String.eqb (fst p) k then Some (snd p) else acc) es
    (JSMap.get m k).
Proof.
  revert m; induction es as [|[k0 v0] es IH]; intro m; simpl; [reflexivity|].
  rewrite IH. unfold JSMapFacts.step; simpl. rewrite JSMapFacts.get_set. reflexivity.
Qed.

(** X9: when the fetched responses hold several rows for one alert, the
    loaded entry is answered and carries the value of the last such row
    ([new Map] keeps the last value of a repeated key). *)
Theorem load_last_response_wins u b s alertsData responsesData :
  fetch_alerts b = Ok alertsData -> fetch_responses b u = Ok responsesData ->
  forall A, In A (alerts (fst (fetchInitialData (Some u) b s))) ->
    response A = last_response responsesData (ev_id A).
Proof.
  intros Ha Hr A HA. rewrite (load_ok_alerts _ _ _ _ _ Ha Hr) in HA.
  apply in_map_iff in HA as [a [<- _]]. unfold enrich, ev_id, user_responses,
    JSMap.of_entries, last_response; simpl.
  change (fun m p => JSMap.set m (fst p) (snd p)) with (@JSMapFacts.step response_type).
  rewrite get_fold_last. change (JSMap.get [] (id a)) with (@None response_type).
  generalize (@None response_type). clear Ha Hr.
  induction responsesData as [|r rd IH]; intro o; simpl; [reflexivity|]. apply IH.
Qed.

Definition duplicate_backend : Backend :=
  mkBackend (Ok [a1]) (fun u => Ok [mkAlertResponseRow "a1" u yes; mkAlertResponseRow "a1" u no])
    (Ok []).

Lemma load_last_response_wins_witness :
  response (mkEvacuationAlert a1 true (Some no)) =
    last_response [mkAlertResponseRow "a1" "u1" yes; mkAlertResponseRow "a1" "u1" no] "a1" /\
  last_response [mkAlertResponseRow "a1" "u1" yes; mkAlertResponseRow "a1" "u1" no] "a1" =
    Some no.
Proof.
  split; [|reflexivity].
  exact (load_last_response_wins "u1" duplicate_backend initial_state [a1]
           [mkAlertResponseRow "a1" "u1" yes; mkAlertResponseRow "a1" "u1" no] eq_refl eq_refl
           (mkEvacuationAlert a1 true (Some no)) (or_introl eq_refl)).
Defined.

Lemma ltrim_nil_iff l : ltrim l = [] <-> forall c, In c l -> is_js_space c = true.
Proof.
  induction l as [|c l IH]; simpl; [split; [contradiction|reflexivity]|].
  case_eq (is_js_space c); intro Hc.
  - rewrite IH. split; [intros H c' [<-|Hin]; auto|intros H c' Hin; apply H; right; exact Hin].
  - split; [discriminate|]. intro H. rewrite (H c (or_introl eq_refl)) in Hc. discriminate.
Qed.

Lemma ltrim_head l c r : ltrim l = c :: r -> is_js_space c = false.
Proof.
  induction l as [|c0 l IH]; simpl; [discriminate|].
  case_eq (is_js_space c0); intro Hc; [exact IH|]. intro H; injection H as <- _. exact Hc.
Qed.

Lemma trim_empty_iff s :
  trim s = "" <-> forall c, In c (list_ascii_of_string s) -> is_js_space c = true.
Proof.
  unfold trim. rewrite <- ltrim_nil_iff.
  assert (Hs : forall l, string_of_list_ascii l = "" <-> l = []).
  { intros [|c l]; simpl; split; intro H; try reflexivity; discriminate H. }
  rewrite Hs. split.
  - intro H. destruct (ltrim (list_ascii_of_string s)) as [|c r] eqn:E; [reflexivity|].
    exfalso. apply (f_equal (@rev _)) in H. rewrite rev_involutive in H.
    replace (rev (@nil ascii)) with (@nil ascii) in H by reflexivity.
    rewrite ltrim_nil_iff in H.
    assert (Hc : is_js_space c = true) by (apply H; rewrite <- in_rev; left; reflexivity).
    rewrite (ltrim_head _ _ _ E) in Hc. discriminate.
  - intro H. rewrite H. reflexivity.
Qed.

(** X10: submitting the help query does nothing when the text is empty or
    only whitespace; otherwise it shows the confirmation and clears the text,
    and when the 3-second timer fires the confirmation is hidden again with
    the text still empty.  No request is sent either way (the handler has no
    backend call). *)
Theorem query_submit_blank_ignored q :
  handleQuerySubmit q =
    (if forallb is_js_space (list_ascii_of_string (helpQuery q)) then q
     else mkQueryState "" true) /\
  (forallb is_js_space (list_ascii_of_string (helpQuery q)) = false ->
   query_timeout (handleQuerySubmit q) = mkQueryState "" false).
Proof.
  assert (Heq : String.eqb (trim (helpQuery q)) "" =
                forallb is_js_space (list_ascii_of_string (helpQuery q))).
  { apply Bool.eq_iff_eq_true. rewrite String.eqb_eq, forallb_forall.
    apply trim_empty_iff. }
  unfold handleQuerySubmit. rewrite Heq. split; [reflexivity|].
  intro Hf. rewrite Hf. reflexivity.
Qed.




Example trim_sample : trim "  need help " = "need help".
Proof. reflexivity. Qed.

Example query_sample :
  handleQuerySubmit (mkQueryState " 	 " false) = mkQueryState " 	 " false /\
  handleQuerySubmit (mkQueryState " x " false) = mkQueryState "" true.
Proof. split; reflexivity. Qed.

Example panel_sample :
  panel_view (fst (run_actions (Some "u1") sample_run initial_state)) =
  AlertCards [(a3, SafeStatus); (a1, SafeStatus); (a2, ResponseButtons)].
Proof. reflexivity. Qed.
